(** * Authorization core of lowvabble-insight

    Shallow embedding of the role hierarchy and capability resolver
    ([PermissionsContext], TypeScript), of the row-level security policies
    and helper functions of the Supabase migrations (SQL), of the invitation
    dialogs ([InviteUserDialog], [AcceptInvite]) and of the folder deletion
    path of [Documents]. Account identifiers ([uuid] columns,
    [auth.uid()]) are modelled as [nat]; tables as lists of rows. *)

From Stdlib Require Import Bool List Arith NArith Lia String Permutation.
Import ListNotations.

Definition uid := nat.

(** ** Roles: [app_role] enum and [roleHierarchy] *)

Inductive app_role := super_admin | admin | editor | reader.

Definition app_role_eqb (a b : app_role) : bool :=
  match a, b with
  | super_admin, super_admin | admin, admin
  | editor, editor | reader, reader => true
  | _, _ => false
  end.

(** [const roleHierarchy: Record<string, number>] *)
Definition roleHierarchy (r : app_role) : nat :=
  match r with
  | super_admin => 4
  | admin => 3
  | editor => 2
  | reader => 1
  end.

(** [type AppRole = 'super_admin' | 'admin' | 'editor' | 'reader' | null] *)
Definition AppRole := option app_role.

(** [hasRole(minRole)] of [PermissionsProvider]:
    [if (!role || !minRole) return false;
     return roleHierarchy[role] >= roleHierarchy[minRole];] *)
Definition hasRole (role minRole : AppRole) : bool :=
  match role, minRole with
  | Some r, Some m => roleHierarchy m <=? roleHierarchy r
  | _, _ => false
  end.

(** [role === x] on an [AppRole]. *)
Definition role_is (role : AppRole) (x : app_role) : bool :=
  match role with Some r => app_role_eqb r x | None => false end.

(** ** Capability resolver: the [value] object of [PermissionsProvider] *)

Record Permissions := {
  canManageUsers : bool;
  canViewUsers : bool;
  canCreateFolders : bool;
  canDeleteFolders : bool;
  canRenameFolders : bool;
  canUploadDocuments : bool;
  canDeleteDocuments : bool;
  canRenameDocuments : bool;
  canUseChat : bool;
  canExportConversations : bool;
  canViewAllConversations : bool;
  canAccessSettings : bool;
  canManageBilling : bool
}.

Definition permissions (role : AppRole) : Permissions := {|
  canManageUsers := role_is role super_admin;
  canViewUsers := role_is role super_admin || role_is role admin;
  canCreateFolders := hasRole role (Some editor);
  canDeleteFolders := hasRole role (Some admin);
  canRenameFolders := hasRole role (Some editor);
  canUploadDocuments := hasRole role (Some editor);
  canDeleteDocuments := hasRole role (Some admin);
  canRenameDocuments := hasRole role (Some editor);
  canUseChat := match role with Some _ => true | None => false end;
  canExportConversations := hasRole role (Some editor);
  canViewAllConversations := hasRole role (Some admin);
  canAccessSettings := hasRole role (Some admin);
  canManageBilling := role_is role super_admin
|}.

(** The eleven threshold capabilities (all but the two exact-match ones). *)
Definition threshold_caps (p : Permissions) : list bool :=
  [canViewUsers p; canCreateFolders p; canDeleteFolders p; canRenameFolders p;
   canUploadDocuments p; canDeleteDocuments p; canRenameDocuments p;
   canUseChat p; canExportConversations p; canViewAllConversations p;
   canAccessSettings p].

(** Every capability, in declaration order. *)
Definition all_caps (p : Permissions) : list bool :=
  canManageUsers p :: threshold_caps p ++ [canManageBilling p].

(** Pointwise implication between two lists of booleans. *)
Fixpoint implies_all (xs ys : list bool) : bool :=
  match xs, ys with
  | x :: xs', y :: ys' => implb x y && implies_all xs' ys'
  | [], [] => true
  | _, _ => false
  end.

(** ** Database tables (Supabase migrations) *)

(** [public.user_roles]: [UNIQUE (user_id)]. *)
Record user_role_row := {
  ur_user_id : uid;
  ur_role : app_role
}.

(** [public.profiles] (the columns used here). *)
Record profile := {
  p_id : uid;
  p_email : string;
  p_is_active : bool
}.

(** [public.folder_access_level] enum. *)
Inductive folder_access_level := private | team | custom.

(** [public.folders]: [user_id] is the legacy owner column, [created_by]
    the nullable creator column ([ON DELETE SET NULL]). *)
Record folder := {
  f_id : nat;
  f_user_id : uid;
  f_access_level : folder_access_level;
  f_created_by : option uid
}.

(** [public.folder_permissions]: [UNIQUE (folder_id, user_id)],
    [folder_id REFERENCES folders(id) ON DELETE CASCADE]. *)
Record folder_permission := {
  fp_folder_id : nat;
  fp_user_id : uid
}.

(** [public.documents] (the columns used here). *)
Record document := {
  d_id : nat;
  d_folder_id : option nat
}.

(** [public.invitations]; timestamps as [N] (seconds). *)
Record invitation := {
  inv_id : nat;
  inv_email : string;
  inv_role : app_role;
  inv_token : nat;
  inv_invited_by : option uid;
  inv_accepted_at : option N;
  inv_expires_at : N;
  inv_created_at : N
}.

(** Accounts of [auth.users]. *)
Record auth_user := {
  au_id : uid;
  au_email : string;
  au_full_name : string
}.

Record db := {
  user_roles : list user_role_row;
  profiles : list profile;
  folders : list folder;
  folder_permissions : list folder_permission;
  documents : list document;
  invitations : list invitation;
  auth_users : list auth_user
}.

(** SQL equality of a nullable column with [auth.uid()]: NULL is not true. *)
Definition eq_nullable (c : option uid) (u : uid) : bool :=
  match c with Some c' => Nat.eqb c' u | None => false end.

(** [.maybeSingle()]: the row when exactly one matches; no row gives
    [data = null], several rows give an error whose [data] is [null]. *)
Definition maybeSingle {A} (l : list A) : option A :=
  match l with [x] => Some x | _ => None end.

(** ** SQL helper functions *)

(** [public.has_role(_user_id, _role)]:
    [SELECT EXISTS (SELECT 1 FROM user_roles WHERE user_id = _user_id AND role = _role)] *)
Definition has_role (roles : list user_role_row) (u : uid) (r : app_role) : bool :=
  existsb (fun row => Nat.eqb (ur_user_id row) u && app_role_eqb (ur_role row) r) roles.

(** Rows of [user_roles] held by [u]. *)
Definition roles_of (roles : list user_role_row) (u : uid) : list user_role_row :=
  filter (fun row => Nat.eqb (ur_user_id row) u) roles.

(** [fetchRole] of [PermissionsProvider]:
    [from('user_roles').select('role').eq('user_id', user.id).maybeSingle()],
    then [setRole(data?.role || null)]; an error also yields [null]. *)
Definition fetchRole (roles : list user_role_row) (u : uid) : AppRole :=
  option_map ur_role (maybeSingle (roles_of roles u)).

(** ** Folder visibility: policy [Users can view accessible folders]
    of the latest migration ([20251206110923]):
<<
  user_id = auth.uid()
  OR public.has_role(auth.uid(), 'super_admin')
  OR access_level = 'team'
  OR (access_level = 'private' AND created_by = auth.uid())
  OR (access_level = 'custom' AND EXISTS (
    SELECT 1 FROM public.folder_permissions fp
    WHERE fp.folder_id = folders.id AND fp.user_id = auth.uid()))
>> *)

Definition is_private (l : folder_access_level) : bool :=
  match l with private => true | _ => false end.
Definition is_team (l : folder_access_level) : bool :=
  match l with team => true | _ => false end.
Definition is_custom (l : folder_access_level) : bool :=
  match l with custom => true | _ => false end.

Definition has_grant (fps : list folder_permission) (fid : nat) (u : uid) : bool :=
  existsb (fun fp => Nat.eqb (fp_folder_id fp) fid && Nat.eqb (fp_user_id fp) u) fps.

Definition canView (roles : list user_role_row) (fps : list folder_permission)
    (u : uid) (f : folder) : bool :=
  Nat.eqb (f_user_id f) u
  || has_role roles u super_admin
  || is_team (f_access_level f)
  || (is_private (f_access_level f) && eq_nullable (f_created_by f) u)
  || (is_custom (f_access_level f) && has_grant fps (f_id f) u).

(** ** Folder deletion: [supabase.from('folders').delete().eq('id', folderId)]
    under the policy [Admins can delete folders]
    ([has_role super_admin OR has_role admin]); a row must also pass the
    SELECT policy to be reached by the [WHERE] clause. The referential
    actions then run in the same statement. *)
Definition folders_delete_policy (roles : list user_role_row) (u : uid) : bool :=
  has_role roles u super_admin || has_role roles u admin.

Definition folder_deleted (d : db) (u : uid) (folderId : nat) (f : folder) : bool :=
  Nat.eqb (f_id f) folderId
  && canView (user_roles d) (folder_permissions d) u f
  && folders_delete_policy (user_roles d) u.

Definition folder_ids (fs : list folder) : list nat := map f_id fs.

(** Modelled from the spec: the [documents] table and its [folder_id]
    foreign key are not in the repository's migrations; the spec and the
    comment of [handleDeleteFolder] ([ON DELETE SET NULL]) say that a
    document whose folder is deleted loses its folder reference. *)
Definition documents_on_folder_delete (gone : list nat) (docs : list document)
    : list document :=
  map (fun doc => match d_folder_id doc with
                  | Some fid => if existsb (Nat.eqb fid) gone
                                then {| d_id := d_id doc; d_folder_id := None |}
                                else doc
                  | None => doc
                  end) docs.

(** [ON DELETE CASCADE] of [folder_permissions.folder_id]. *)
Definition folder_permissions_on_folder_delete (gone : list nat)
    (fps : list folder_permission) : list folder_permission :=
  filter (fun fp => negb (existsb (Nat.eqb (fp_folder_id fp)) gone)) fps.

Definition delete_folder (d : db) (u : uid) (folderId : nat) : db :=
  let gone := folder_ids (filter (folder_deleted d u folderId) (folders d)) in
  {| user_roles := user_roles d;
     profiles := profiles d;
     folders := filter (fun f => negb (folder_deleted d u folderId f)) (folders d);
     folder_permissions := folder_permissions_on_folder_delete gone (folder_permissions d);
     documents := documents_on_folder_delete gone (documents d);
     invitations := invitations d;
     auth_users := auth_users d |}.

(** Referential integrity of the folder references. *)
Definition folder_refs_ok (d : db) : Prop :=
  (forall fp, In fp (folder_permissions d) -> In (fp_folder_id fp) (folder_ids (folders d)))
  /\ (forall doc fid, In doc (documents d) -> d_folder_id doc = Some fid ->
                      In fid (folder_ids (folders d))).

(** ** Invitations read policy: [Super admins can manage invitations]
    ([FOR ALL USING has_role(auth.uid(), 'super_admin')]) OR
    [Anyone can view invitation by token for accepting]
    ([FOR SELECT USING (true)]). *)
Definition invitations_select_policy (roles : list user_role_row) (u : option uid)
    (row : invitation) : bool :=
  match u with Some u' => has_role roles u' super_admin | None => false end || true.

(** [SELECT * FROM invitations] as requester [u] ([None]: anonymous). *)
Definition select_invitations (d : db) (u : option uid) : list invitation :=
  filter (invitations_select_policy (user_roles d) u) (invitations d).

(** ** Invitations *)

(** [expires_at DEFAULT (now() + interval '7 days')], time in seconds. *)
Definition seven_days : N := 604800.

(** [z.enum(['admin', 'editor', 'reader'])] of [inviteSchema]. *)
Definition parse_invite_role (s : string) : option app_role :=
  if String.eqb s "admin" then Some admin
  else if String.eqb s "editor" then Some editor
  else if String.eqb s "reader" then Some reader
  else None.

(** Policy [Users can view profiles based on role] on [profiles]. *)
Definition profiles_select_policy (roles : list user_role_row) (u : uid) (p : profile)
    : bool :=
  Nat.eqb u (p_id p) || has_role roles u super_admin || has_role roles u admin.

(** Outcomes of [InviteUserDialog.handleSubmit]: the [setError] sites, the
    caught insert error, and the created invitation's token. *)
Inductive invite_outcome :=
  | InviteValidationError
  | InviteAlreadyRegistered
  | InvitePendingExists
  | InviteInsertError
  | InviteCreated (token : nat).

(** Outcomes of [AcceptInvite.fetchInvitation]. *)
Inductive fetch_outcome :=
  | FetchNotFound
  | FetchAlreadyAccepted
  | FetchExpired
  | FetchOk (i : invitation).

(** Outcomes of [AcceptInvite.handleSubmit]. *)
Inductive accept_outcome :=
  | AcceptValidationError
  | AcceptNoInvitation
  | AcceptFailed
  | AcceptCreated.

Definition set_invitations (d : db) (invs : list invitation) : db :=
  {| user_roles := user_roles d; profiles := profiles d; folders := folders d;
     folder_permissions := folder_permissions d; documents := documents d;
     invitations := invs; auth_users := auth_users d |}.

Definition set_user_roles (d : db) (rs : list user_role_row) : db :=
  {| user_roles := rs; profiles := profiles d; folders := folders d;
     folder_permissions := folder_permissions d; documents := documents d;
     invitations := invitations d; auth_users := auth_users d |}.

Definition set_auth_users (d : db) (us : list auth_user) : db :=
  {| user_roles := user_roles d; profiles := profiles d; folders := folders d;
     folder_permissions := folder_permissions d; documents := documents d;
     invitations := invitations d; auth_users := us |}.

(** [AcceptInvite.fetchInvitation] at time [now]:
    [from('invitations').select('*').eq('token', token).maybeSingle()],
    then the [accepted_at] and [new Date(expires_at) < new Date()] checks. *)
Definition fetchInvitation (d : db) (token : nat) (now : N) : fetch_outcome :=
  match maybeSingle (filter (fun i => Nat.eqb (inv_token i) token) (invitations d)) with
  | None => FetchNotFound
  | Some i =>
      match inv_accepted_at i with
      | Some _ => FetchAlreadyAccepted
      | None => if (inv_expires_at i <? now)%N then FetchExpired else FetchOk i
      end
  end.

(** [signupSchema]: [fullName] of 2 to 100 characters, [password] of at
    least 8, and [password === confirmPassword]. *)
Definition signupSchema (fullName password confirmPassword : string) : bool :=
  (2 <=? String.length fullName) && (String.length fullName <=? 100)
  && (8 <=? String.length password) && String.eqb password confirmPassword.

(** [update({ accepted_at: now }).eq('id', id)] on [invitations]. *)
Definition stamp_accepted (id : nat) (now : N) (invs : list invitation) : list invitation :=
  map (fun i => if Nat.eqb (inv_id i) id
                then {| inv_id := inv_id i; inv_email := inv_email i;
                        inv_role := inv_role i; inv_token := inv_token i;
                        inv_invited_by := inv_invited_by i;
                        inv_accepted_at := Some now;
                        inv_expires_at := inv_expires_at i;
                        inv_created_at := inv_created_at i |}
                else i) invs.

(** [AcceptInvite.handleSubmit] at time [now]. [invitation] is the React
    state set by [fetchInvitation] when the form was displayed. The three
    remote calls are external: [signUp] is the account id returned by
    [supabase.auth.signUp] ([None] for [signUpError] or no [user]),
    [role_ok] whether the [user_roles] insert succeeded, [stamp_ok]
    whether the [accepted_at] update took effect (its result is not
    inspected by the code). *)
Definition accept_handleSubmit (d : db) (invitation : option invitation)
    (fullName password confirmPassword : string) (now : N)
    (signUp : option uid) (role_ok stamp_ok : bool) : db * accept_outcome :=
  if negb (signupSchema fullName password confirmPassword)
  then (d, AcceptValidationError)
  else match invitation with
  | None => (d, AcceptNoInvitation)
  | Some inv =>
      match signUp with
      | None => (d, AcceptFailed)
      | Some u =>
          let d1 := set_auth_users d (auth_users d ++
                      [{| au_id := u; au_email := inv_email inv;
                          au_full_name := fullName |}]) in
          if negb role_ok then (d1, AcceptFailed)
          else
            let d2 := set_user_roles d1 (user_roles d1 ++
                        [{| ur_user_id := u; ur_role := inv_role inv |}]) in
            let d3 := if stamp_ok
                      then set_invitations d2 (stamp_accepted (inv_id inv) now
                                                 (invitations d2))
                      else d2 in
            (d3, AcceptCreated)
      end
  end.

(** Revocation in the team page:
    [supabase.from('invitations').delete().eq('id', id)], effective only
    under [Super admins can manage invitations]. *)
Definition revoke_invitation (d : db) (caller : uid) (id : nat) : db :=
  if has_role (user_roles d) caller super_admin
  then set_invitations d (filter (fun i => negb (Nat.eqb (inv_id i) id)) (invitations d))
  else d.

Section Invitations.

(** [z.string().email()]: zod's e-mail syntax check. *)
Variable is_email : string -> bool.

(** [inviteSchema.safeParse({ email, role })]. *)
Definition inviteSchema (email role : string) : option app_role :=
  if is_email email && (String.length email <=? 255)
  then parse_invite_role role else None.

(** [InviteUserDialog.handleSubmit], run by the signed-in [caller] at time
    [now]; [new_id] and [new_token] are the column defaults
    [gen_random_uuid()] and [encode(gen_random_bytes(32), 'hex')].
    The insert passes the policy [Super admins can manage invitations]
    only for a super admin and fails on a duplicate token
    ([token ... UNIQUE]). *)
Definition invite_handleSubmit (d : db) (caller : uid) (email role : string)
    (now : N) (new_id new_token : nat) : db * invite_outcome :=
  match inviteSchema email role with
  | None => (d, InviteValidationError)
  | Some r =>
      let existingProfile :=
        maybeSingle (filter (fun p => profiles_select_policy (user_roles d) caller p
                                      && String.eqb (p_email p) email)
                            (profiles d)) in
      match existingProfile with
      | Some _ => (d, InviteAlreadyRegistered)
      | None =>
          let existingInvite :=
            maybeSingle (filter (fun i => String.eqb (inv_email i) email
                                          && match inv_accepted_at i with
                                             | None => true | Some _ => false end)
                                (invitations d)) in
          match existingInvite with
          | Some _ => (d, InvitePendingExists)
          | None =>
              if has_role (user_roles d) caller super_admin
                 && negb (existsb (fun i => Nat.eqb (inv_token i) new_token)
                                  (invitations d))
              then (set_invitations d (invitations d ++
                      [{| inv_id := new_id; inv_email := email; inv_role := r;
                          inv_token := new_token; inv_invited_by := Some caller;
                          inv_accepted_at := None;
                          inv_expires_at := (now + seven_days)%N;
                          inv_created_at := now |}]),
                    InviteCreated new_token)
              else (d, InviteInsertError)
          end
      end
  end.

(** States of the invitation store reachable from an empty one through the
    application's operations; any operation that leaves the
    [invitations] table alone is a step as well. *)
Inductive reachable : db -> Prop :=
  | reach_init d :
      invitations d = [] -> reachable d
  | reach_create d caller email role now new_id new_token :
      reachable d ->
      reachable (fst (invite_handleSubmit d caller email role now new_id new_token))
  | reach_accept d invitation fullName password confirmPassword now signUp role_ok stamp_ok :
      reachable d ->
      reachable (fst (accept_handleSubmit d invitation fullName password
                        confirmPassword now signUp role_ok stamp_ok))
  | reach_revoke d caller id :
      reachable d -> reachable (revoke_invitation d caller id)
  | reach_other d d' :
      reachable d -> invitations d' = invitations d -> reachable d'.

End Invitations.
(** ** Role helpers of the migrations *)

(** [ur.role IN (...)]. *)
Definition role_in (r : app_role) (l : list app_role) : bool :=
  existsb (app_role_eqb r) l.

(** [public.has_role_or_higher(_user_id, _min_role)] as redefined by the
    migration [20251206163949] (the [CASE _min_role] form; its [ELSE false]
    branch is unreachable on the enum). *)
Definition has_role_or_higher (roles : list user_role_row) (u : uid) (min_role : app_role)
    : bool :=
  existsb (fun ur => Nat.eqb (ur_user_id ur) u
                     && match min_role with
                        | reader => role_in (ur_role ur) [reader; editor; admin; super_admin]
                        | editor => role_in (ur_role ur) [editor; admin; super_admin]
                        | admin => role_in (ur_role ur) [admin; super_admin]
                        | super_admin => app_role_eqb (ur_role ur) super_admin
                        end) roles.

(** The first definition of [public.has_role_or_higher] (initial
    migration):
<<
  role = 'super_admin' OR
  (_min_role = 'admin' AND role IN ('super_admin', 'admin')) OR
  (_min_role = 'editor' AND role IN ('super_admin', 'admin', 'editor')) OR
  (_min_role = 'reader')
>> *)
Definition has_role_or_higher_v1 (roles : list user_role_row) (u : uid)
    (min_role : app_role) : bool :=
  existsb (fun ur => Nat.eqb (ur_user_id ur) u
                     && (app_role_eqb (ur_role ur) super_admin
                         || (app_role_eqb min_role admin
                             && role_in (ur_role ur) [super_admin; admin])
                         || (app_role_eqb min_role editor
                             && role_in (ur_role ur) [super_admin; admin; editor])
                         || app_role_eqb min_role reader)) roles.

(** ** Documents page ([Documents.tsx]): client state *)

Record documents_page := {
  pg_folders : list folder;
  pg_documents : list document;
  pg_currentFolderId : option nat
}.

Definition option_nat_eqb (a b : option nat) : bool :=
  match a, b with
  | Some x, Some y => Nat.eqb x y
  | None, None => true
  | _, _ => false
  end.

(** [documents.filter(d => d.folder_id === currentFolderId)]. *)
Definition currentDocuments (pg : documents_page) : list document :=
  filter (fun doc => option_nat_eqb (d_folder_id doc) (pg_currentFolderId pg))
         (pg_documents pg).

(** [const canManageAccess = hasRole('admin')]: the access dialog is
    offered only when it holds. *)
Definition canManageAccess (role : AppRole) : bool := hasRole role (Some admin).

(** [handleDeleteFolder]: [error] is whether the [delete] request
    reported an error. *)
Definition handleDeleteFolder (perms : Permissions) (pg : documents_page)
    (folderId : nat) (error : bool) : documents_page :=
  if negb (canDeleteFolders perms) then pg
  else match find (fun f => Nat.eqb (f_id f) folderId) (pg_folders pg) with
  | None => pg
  | Some _ =>
      if error then pg
      else {| pg_folders := filter (fun f => negb (Nat.eqb (f_id f) folderId)) (pg_folders pg);
              pg_documents :=
                map (fun doc => if option_nat_eqb (d_folder_id doc) (Some folderId)
                                then {| d_id := d_id doc; d_folder_id := None |}
                                else doc) (pg_documents pg);
              pg_currentFolderId :=
                if option_nat_eqb (pg_currentFolderId pg) (Some folderId)
                then None else pg_currentFolderId pg |}
  end.

Definition set_folders (d : db) (fs : list folder) : db :=
  {| user_roles := user_roles d; profiles := profiles d; folders := fs;
     folder_permissions := folder_permissions d; documents := documents d;
     invitations := invitations d; auth_users := auth_users d |}.

Definition set_folder_permissions (d : db) (fps : list folder_permission) : db :=
  {| user_roles := user_roles d; profiles := profiles d; folders := folders d;
     folder_permissions := fps; documents := documents d;
     invitations := invitations d; auth_users := auth_users d |}.

(** ** Row-level security: expansion of policy subqueries

    When a statement reaches a relation with row-level security, Postgres
    adds the relation's applicable policies to it. A policy holding a
    subquery ([EXISTS (SELECT ... FROM r)]) makes the rewriter expand the
    policies of [r] as well, for a [SELECT]. The rewriter keeps the
    relations whose policies it is expanding, and meeting one of them again
    raises [42P17] ([infinite recursion detected in policy for relation]).
    Calls to the [SECURITY DEFINER] helper [has_role] run as its owner and
    are not expanded. *)

Inductive sql_relation :=
  | rel_user_roles | rel_profiles | rel_invitations | rel_folders | rel_folder_permissions.

Inductive sql_command := cmd_select | cmd_insert | cmd_update | cmd_delete.

Definition sql_relation_eqb (a b : sql_relation) : bool :=
  match a, b with
  | rel_user_roles, rel_user_roles | rel_profiles, rel_profiles
  | rel_invitations, rel_invitations | rel_folders, rel_folders
  | rel_folder_permissions, rel_folder_permissions => true
  | _, _ => false
  end.

(** Modelled from the spec: [folders] and [profiles] are created outside
    the repository's migrations, and their [ENABLE ROW LEVEL SECURITY]
    with them; the policies the migrations create and drop on both, and
    the spec's visibility rules, presuppose row-level security there.
    [user_roles], [invitations] and [folder_permissions] enable it in the
    initial migration. *)
Definition rls_enabled (r : sql_relation) : bool :=
  match r with
  | rel_user_roles | rel_profiles | rel_invitations | rel_folders
  | rel_folder_permissions => true
  end.

(** Relations read by subqueries of the policies that apply to [cmd] on
    [r]:
    - [folders], [SELECT]: [Users can view accessible folders] (each of its
      versions) reads [folder_permissions];
    - [folder_permissions], every command: [Folder creators can manage
      permissions] ([FOR ALL]) reads [folders].
    Every other policy of the repository calls [has_role] or compares
    columns. The [INSERT] and [UPDATE] policies of [folders] are not in
    the repository and are taken to hold no subquery. *)
Definition policy_subquery_relations (r : sql_relation) (cmd : sql_command)
    : list sql_relation :=
  match r, cmd with
  | rel_folders, cmd_select => [rel_folder_permissions]
  | rel_folder_permissions, _ => [rel_folders]
  | _, _ => []
  end.

(** Subqueries of the policies applied to a statement: those of its
    command and, when the statement reads existing rows ([WHERE],
    [RETURNING]), those of the [SELECT] policies. *)
Definition statement_subquery_relations (r : sql_relation) (cmd : sql_command)
    (reads : bool) : list sql_relation :=
  if rls_enabled r
  then policy_subquery_relations r cmd
       ++ (if reads then policy_subquery_relations r cmd_select else [])
  else [].

(** The rewriter's walk; [active] holds the relations under expansion.
    Each level adds a relation not yet in [active], so a depth of five
    (the number of relations) is never exceeded. *)
Fixpoint rls_recursion (fuel : nat) (active : list sql_relation) (r : sql_relation)
    (cmd : sql_command) (reads : bool) : bool :=
  match statement_subquery_relations r cmd reads with
  | [] => false
  | subs =>
      existsb (sql_relation_eqb r) active
      || match fuel with
         | O => false
         | S fuel' => existsb (fun r' => rls_recursion fuel' (r :: active) r' cmd_select true)
                              subs
         end
  end.

(** Whether a statement [cmd] on [r] fails with [42P17]. *)
Definition rls_error (r : sql_relation) (cmd : sql_command) (reads : bool) : bool :=
  rls_recursion 5 [] r cmd reads.

(** Result of one SQL statement: the new state, or the error code. *)
Inductive stmt_result :=
  | StmtOk (d : db)
  | StmtError (code : string).

(** [handleCreateFolder] as [user] ([None]: signed out):
    [insert([{ name, user_id: user.id, created_by: user.id }]).select().single()],
    with [access_level] taking its default ['team']. [.select()] makes it
    an [INSERT ... RETURNING], which applies the [SELECT] policies too. The
    [folders] insert policy is not in the repository: [insert_ok] is its
    answer. An error leaves the state as it was. *)
Definition handleCreateFolder (d : db) (user : option uid) (perms : Permissions)
    (new_id : nat) (insert_ok : bool) : db :=
  match user with
  | None => d
  | Some u =>
      if negb (canCreateFolders perms) then d
      else if rls_error rel_folders cmd_insert true then d
      else if insert_ok
      then set_folders d (folders d ++ [{| f_id := new_id; f_user_id := u;
                                           f_access_level := team;
                                           f_created_by := Some u |}])
      else d
  end.

(** ** Folder access dialog ([FolderAccessDialog]) *)

(** [toggleUser]: [prev.includes(userId) ? prev.filter(id => id !== userId)
    : [...prev, userId]]. *)
Definition toggleUser (prev : list uid) (userId : uid) : list uid :=
  if existsb (Nat.eqb userId) prev
  then filter (fun id => negb (Nat.eqb id userId)) prev
  else prev ++ [userId].

Definition folder_permission_eqb (a b : folder_permission) : bool :=
  Nat.eqb (fp_folder_id a) (fp_folder_id b) && Nat.eqb (fp_user_id a) (fp_user_id b).

Fixpoint folder_permissions_distinct (l : list folder_permission) : bool :=
  match l with
  | [] => true
  | x :: xs => negb (existsb (folder_permission_eqb x) xs) && folder_permissions_distinct xs
  end.

(** The [FOR ALL] policies of [folder_permissions] as formulas
    ([Super admins can manage folder permissions], [Admins can manage
    folder permissions], [Folder creators can manage permissions]),
    OR-ed. *)
Definition folder_permissions_for_all_policy (d : db) (u : uid) (row : folder_permission)
    : bool :=
  has_role (user_roles d) u super_admin
  || has_role (user_roles d) u admin
  || existsb (fun f => Nat.eqb (f_id f) (fp_folder_id row) && eq_nullable (f_created_by f) u)
             (folders d).

(** [.from('folder_permissions').delete().eq('folder_id', folderId)] as
    [u]. Past the rewriter, a row goes when the [FOR ALL] policies admit
    it; the [SELECT] policies the [WHERE] clause adds contain them, so the
    conjunction is the [FOR ALL] formula. *)
Definition exec_folder_permissions_delete (d : db) (u : uid) (folderId : nat) : stmt_result :=
  if rls_error rel_folder_permissions cmd_delete true then StmtError "42P17"
  else StmtOk (set_folder_permissions d
         (filter (fun fp => negb (Nat.eqb (fp_folder_id fp) folderId
                                  && folder_permissions_for_all_policy d u fp))
                 (folder_permissions d))).

(** [.from('folder_permissions').insert(rows)] as [u] (no [RETURNING]): a
    row failing the [FOR ALL] policies is refused ([42501]), a pair
    already present or repeated breaks [UNIQUE (folder_id, user_id)]
    ([23505]). *)
Definition exec_folder_permissions_insert (d : db) (u : uid) (rows : list folder_permission)
    : stmt_result :=
  if rls_error rel_folder_permissions cmd_insert false then StmtError "42P17"
  else if negb (forallb (folder_permissions_for_all_policy d u) rows) then StmtError "42501"
  else if negb (forallb (fun r => negb (existsb (folder_permission_eqb r)
                                               (folder_permissions d))) rows
                && folder_permissions_distinct rows)
  then StmtError "23505"
  else StmtOk (set_folder_permissions d (folder_permissions d ++ rows)).

(** [.from('folders').update({ access_level: accessLevel }).eq('id', folderId)]
    as [u]: the [WHERE] clause applies the [SELECT] policy. The [UPDATE]
    policy is not in the repository: [update_ok] is its answer (a row it
    refuses is left alone, without error). *)
Definition exec_folders_update_access_level (d : db) (u : uid) (folderId : nat)
    (lvl : folder_access_level) (update_ok : bool) : stmt_result :=
  if rls_error rel_folders cmd_update true then StmtError "42P17"
  else if update_ok
  then StmtOk (set_folders d
         (map (fun f => if Nat.eqb (f_id f) folderId
                           && canView (user_roles d) (folder_permissions d) u f
                        then {| f_id := f_id f; f_user_id := f_user_id f;
                                f_access_level := lvl; f_created_by := f_created_by f |}
                        else f) (folders d)))
  else StmtOk d.

(** [FolderAccessDialog.handleSave] as [caller]: the [folders] update
    (an error is thrown), then the grant delete (its result is not
    inspected) and, for [custom] with a non-empty selection, the grant
    insert (an error is thrown). The boolean is [true] when the save
    reports success. *)
Definition folder_access_handleSave (d : db) (caller : uid) (folderId : nat)
    (accessLevel : folder_access_level) (selectedUsers : list uid) (update_ok : bool)
    : db * bool :=
  match exec_folders_update_access_level d caller folderId accessLevel update_ok with
  | StmtError _ => (d, false)
  | StmtOk d1 =>
      let d2 := match exec_folder_permissions_delete d1 caller folderId with
                | StmtOk d' => d'
                | StmtError _ => d1
                end in
      if is_custom accessLevel then
        match selectedUsers with
        | [] => (d2, true)
        | _ :: _ =>
            match exec_folder_permissions_insert d2 caller
                    (map (fun userId => {| fp_folder_id := folderId; fp_user_id := userId |})
                         selectedUsers) with
            | StmtOk d3 => (d3, true)
            | StmtError _ => (d2, false)
            end
        end
      else (d2, true)
  end.

(** ** Team page ([Team]) *)

(** [new Map(roles.map(r => [r.user_id, r.role])).get(id)]: the last
    entry for a key wins. *)
Fixpoint rolesMap_get (roles : list user_role_row) (id : uid) : option app_role :=
  match roles with
  | [] => None
  | r :: rs =>
      match rolesMap_get rs id with
      | Some x => Some x
      | None => if Nat.eqb (ur_user_id r) id then Some (ur_role r) else None
      end
  end.

(** [role: rolesMap.get(p.id) || 'reader'] of [fetchData]. *)
Definition member_role (roles : list user_role_row) (p : profile) : app_role :=
  match rolesMap_get roles (p_id p) with Some r => r | None => reader end.

(** [handleChangeRole] as [caller]:
    [.from('user_roles').update({ role: newRole }).eq('user_id', editRoleUserId)],
    effective under [Super admins can manage all roles]. *)
Definition handleChangeRole (d : db) (caller : uid) (editRoleUserId : uid)
    (newRole : app_role) : db :=
  if has_role (user_roles d) caller super_admin
  then set_user_roles d (map (fun ur => if Nat.eqb (ur_user_id ur) editRoleUserId
                                        then {| ur_user_id := ur_user_id ur; ur_role := newRole |}
                                        else ur) (user_roles d))
  else d.

(** ** Concrete states used by the examples and witnesses *)

Definition db_empty : db :=
  {| user_roles := []; profiles := []; folders := []; folder_permissions := [];
     documents := []; invitations := []; auth_users := [] |}.

(** The scenario of the spec: [A] (user 1, [editor]) created the private
    folder [F]; [B] (user 2, [admin]) cannot see it, [S] (user 3,
    [super_admin]) can. *)
Definition scenario_roles : list user_role_row :=
  [{| ur_user_id := 1; ur_role := editor |};
   {| ur_user_id := 2; ur_role := admin |};
   {| ur_user_id := 3; ur_role := super_admin |}].

Definition scenario_F : folder :=
  {| f_id := 10; f_user_id := 1; f_access_level := private; f_created_by := Some 1 |}.

Definition grant_db : db :=
  {| user_roles := [{| ur_user_id := 2; ur_role := reader |};
                    {| ur_user_id := 4; ur_role := editor |}];
     profiles := [];
     folders := [{| f_id := 1; f_user_id := 2; f_access_level := team;
                    f_created_by := Some 2 |}];
     folder_permissions := []; documents := []; invitations := [];
     auth_users := [] |}.

Definition folders_db : db :=
  {| user_roles := [{| ur_user_id := 1; ur_role := admin |}];
     profiles := [];
     folders := [{| f_id := 5; f_user_id := 1; f_access_level := team;
                    f_created_by := Some 1 |};
                 {| f_id := 6; f_user_id := 1; f_access_level := team;
                    f_created_by := Some 1 |}];
     folder_permissions := [{| fp_folder_id := 5; fp_user_id := 2 |}];
     documents := [{| d_id := 1; d_folder_id := Some 5 |};
                   {| d_id := 2; d_folder_id := Some 6 |}];
     invitations := []; auth_users := [] |}.

Definition any_email (_ : string) : bool := true.

Definition invite_db0 : db :=
  {| user_roles := [{| ur_user_id := 1; ur_role := super_admin |}];
     profiles := [{| p_id := 1; p_email := "root@example.com"; p_is_active := true |}];
     folders := []; folder_permissions := []; documents := [];
     invitations := []; auth_users := [] |}.

Definition invite_db1 : db :=
  fst (invite_handleSubmit any_email invite_db0 1 "bob@example.com"%string "editor"%string 0 1 7).

Definition bob_invitation : invitation :=
  {| inv_id := 1; inv_email := "bob@example.com"; inv_role := editor; inv_token := 7;
     inv_invited_by := Some 1; inv_accepted_at := None; inv_expires_at := 100%N;
     inv_created_at := 0%N |}.

Definition invite_db_expired : db :=
  {| user_roles := [{| ur_user_id := 1; ur_role := super_admin |}];
     profiles := [{| p_id := 1; p_email := "root@example.com"; p_is_active := true |}];
     folders := []; folder_permissions := []; documents := [];
     invitations := [bob_invitation]; auth_users := [] |}.

Definition accept_db : db :=
  {| user_roles := []; profiles := []; folders := []; folder_permissions := [];
     documents := []; invitations := [bob_invitation]; auth_users := [] |}.

Example permissions_editor :
  all_caps (permissions (Some editor)) =
  [false; false; true; false; true; true; false; true; true; true; false; false; false].
Proof. reflexivity. Qed.

Example permissions_none :
  all_caps (permissions None) = repeat false 13.
Proof. reflexivity. Qed.

Example fetchRole_single :
  fetchRole [{| ur_user_id := 3; ur_role := editor |}] 3 = Some editor.
Proof. reflexivity. Qed.

(** ** Helper lemmas *)

Lemma eq_nullable_true (c : option uid) (u : uid) :
  eq_nullable c u = true <-> c = Some u.
Proof.
  destruct c as [c|]; simpl; split; intro H; try discriminate.
  - apply Nat.eqb_eq in H; subst; reflexivity.
  - injection H as ->; apply Nat.eqb_refl.
Qed.

Lemma has_role_no_rows (roles : list user_role_row) (u : uid) (r : app_role) :
  roles_of roles u = [] -> has_role roles u r = false.
Proof.
  induction roles as [|row roles IH]; simpl; intro H; [reflexivity|].
  destruct (Nat.eqb (ur_user_id row) u); simpl in *; [discriminate|].
  apply IH; exact H.
Qed.

Lemma fetchRole_no_rows (roles : list user_role_row) (u : uid) :
  roles_of roles u = [] -> fetchRole roles u = None.
Proof. unfold fetchRole; intros ->; reflexivity. Qed.

(** The two policy expansions that recurse. *)
Lemma rls_error_folder_permissions (cmd : sql_command) (reads : bool) :
  rls_error rel_folder_permissions cmd reads = true.
Proof. destruct cmd, reads; reflexivity. Qed.

Lemma rls_error_folders_reading (cmd : sql_command) :
  rls_error rel_folders cmd true = true.
Proof. destruct cmd; reflexivity. Qed.

Lemma fetchRole_one_row (roles : list user_role_row) (u : uid) (row : user_role_row) :
  roles_of roles u = [row] -> fetchRole roles u = Some (ur_role row).
Proof. unfold fetchRole; intros ->; reflexivity. Qed.

(** A folder id outside the deleted set belongs to a surviving folder. *)
Lemma folder_survives (P : folder -> bool) (fs : list folder) (n : nat) :
  existsb (Nat.eqb n) (folder_ids (filter P fs)) = false ->
  In n (folder_ids fs) ->
  In n (folder_ids (filter (fun f => negb (P f)) fs)).
Proof.
  unfold folder_ids; intros Hgone Hin.
  apply in_map_iff in Hin as [f [Hf Hinf]]; subst n.
  apply in_map; apply filter_In; split; [exact Hinf|].
  destruct (P f) eqn:HP; [|reflexivity].
  exfalso.
  assert (existsb (Nat.eqb (f_id f)) (map f_id (filter P fs)) = true) as Ht.
  { apply existsb_exists; exists (f_id f); split.
    - apply in_map; apply filter_In; auto.
    - apply Nat.eqb_refl. }
  congruence.
Qed.

Lemma deleted_id_gone (P : folder -> bool) (fs : list folder) (f : folder) :
  In f fs -> P f = true -> existsb (Nat.eqb (f_id f)) (folder_ids (filter P fs)) = true.
Proof.
  intros Hin HP; apply existsb_exists; exists (f_id f); split.
  - apply in_map; apply filter_In; auto.
  - apply Nat.eqb_refl.
Qed.

(** ** C5: monotonicity of the capability resolver *)

(** C5. For roles [r1 < r2] in [roleHierarchy], every capability other
    than the exact-match ones that the resolver grants to [r1] it also
    grants to [r2]; [canManageUsers] and [canManageBilling] are false for
    every role other than [super_admin]. *)
Theorem permissions_monotone (r1 r2 : app_role)
    (Hlt : roleHierarchy r1 < roleHierarchy r2) :
  implies_all (threshold_caps (permissions (Some r1)))
              (threshold_caps (permissions (Some r2))) = true
  /\ (forall r, r <> super_admin ->
        canManageUsers (permissions (Some r)) = false
        /\ canManageBilling (permissions (Some r)) = false).
Proof.
  split.
  - destruct r1, r2; simpl in Hlt; try lia; reflexivity.
  - intros r Hr; destruct r; simpl; try (split; reflexivity).
    exfalso; apply Hr; reflexivity.
Qed.

Lemma permissions_monotone_witness :
  roleHierarchy reader < roleHierarchy admin
  /\ implies_all (threshold_caps (permissions (Some reader)))
                 (threshold_caps (permissions (Some admin))) = true.
Proof.
  split; [simpl; lia|].
  apply (permissions_monotone reader admin); simpl; lia.
Defined.

(** ** C1: users without a role, inactive users *)

(** C1, as stated, fails: user 5 has no role record and is inactive, yet
    the [team] folder 1 of user 1 passes [canView] for them; an inactive
    [reader] (user 6) still gets [canUseChat]. *)
Lemma no_role_or_inactive_counterexample :
  ~ (forall (d : db) (u : uid),
       (roles_of (user_roles d) u = []
        \/ exists p, In p (profiles d) /\ p_id p = u /\ p_is_active p = false) ->
       all_caps (permissions (fetchRole (user_roles d) u)) = repeat false 13
       /\ forall f, canView (user_roles d) (folder_permissions d) u f = false).
Proof.
  intro H.
  set (d := {| user_roles := [{| ur_user_id := 6; ur_role := reader |}];
               profiles := [{| p_id := 5; p_email := "a@x.io"; p_is_active := false |};
                            {| p_id := 6; p_email := "b@x.io"; p_is_active := false |}];
               folders := []; folder_permissions := []; documents := [];
               invitations := []; auth_users := [] |}).
  destruct (H d 5 (or_introl eq_refl)) as [_ Hview].
  specialize (Hview {| f_id := 1; f_user_id := 1; f_access_level := team;
                       f_created_by := Some 1 |}).
  vm_compute in Hview; discriminate.
Qed.

(** Inactive users keep their role's capabilities (the resolver reads only
    [user_roles]). *)
Example inactive_reader_uses_chat :
  canUseChat (permissions (fetchRole [{| ur_user_id := 6; ur_role := reader |}] 6)) = true.
Proof. reflexivity. Qed.

(** C1 (amended). A user with no [user_roles] row gets every capability
    false from the resolver, and [canView] admits exactly the folders the
    user owns ([user_id]), the [team] folders, the [private] folders the
    user created and the [custom] folders the user holds a grant for.
    Neither the resolver nor [canView] reads [is_active]: a user with one
    role row gets that role's capabilities. *)
Theorem no_role_capabilities_and_visibility (d : db) (u : uid)
    (Hnone : roles_of (user_roles d) u = []) :
  all_caps (permissions (fetchRole (user_roles d) u)) = repeat false 13
  /\ (forall f, canView (user_roles d) (folder_permissions d) u f
                = Nat.eqb (f_user_id f) u
                  || is_team (f_access_level f)
                  || (is_private (f_access_level f) && eq_nullable (f_created_by f) u)
                  || (is_custom (f_access_level f)
                      && has_grant (folder_permissions d) (f_id f) u))
  /\ (forall d' row, roles_of (user_roles d') u = [row] ->
        permissions (fetchRole (user_roles d') u) = permissions (Some (ur_role row))).
Proof.
  split; [|split].
  - rewrite (fetchRole_no_rows _ _ Hnone); reflexivity.
  - intro f; unfold canView; rewrite (has_role_no_rows _ _ _ Hnone), orb_false_r; reflexivity.
  - intros d' row Hrow; rewrite (fetchRole_one_row _ _ _ Hrow); reflexivity.
Qed.

Lemma no_role_capabilities_and_visibility_witness :
  roles_of (user_roles db_empty) 5 = []
  /\ all_caps (permissions (fetchRole (user_roles db_empty) 5)) = repeat false 13.
Proof.
  split; [reflexivity|].
  apply (no_role_capabilities_and_visibility db_empty 5); reflexivity.
Defined.

(** ** C2: private folders *)

(** C2, as stated, fails: an [admin] (user 2) who is the legacy owner
    ([user_id]) but not the creator of a [private] folder passes
    [canView] (here [created_by] is NULL, as for folders created before
    the column existed). *)
Lemma private_folder_owner_counterexample :
  ~ (forall (d : db) (u : uid) (f : folder),
       f_access_level f = private ->
       (canView (user_roles d) (folder_permissions d) u f = true
        <-> f_created_by f = Some u \/ has_role (user_roles d) u super_admin = true)).
Proof.
  intro H.
  set (d := {| user_roles := [{| ur_user_id := 2; ur_role := admin |}];
               profiles := []; folders := []; folder_permissions := [];
               documents := []; invitations := []; auth_users := [] |}).
  set (f := {| f_id := 1; f_user_id := 2; f_access_level := private;
               f_created_by := None |}).
  destruct (H d 2 f eq_refl) as [Hto _].
  destruct (Hto eq_refl) as [Hc | Hs]; discriminate.
Qed.

(** C2 (amended). A [private] folder is visible to a user exactly when the
    user is its owner ([user_id]), its creator ([created_by]) or a
    [super_admin]; in particular an [admin] who is neither owner nor
    creator cannot see it, and a [super_admin] always can. *)
Theorem private_folder_visibility (d : db) (u : uid) (f : folder)
    (Hpriv : f_access_level f = private) :
  canView (user_roles d) (folder_permissions d) u f
  = Nat.eqb (f_user_id f) u || eq_nullable (f_created_by f) u
    || has_role (user_roles d) u super_admin.
Proof.
  unfold canView; rewrite Hpriv; simpl.
  destruct (Nat.eqb (f_user_id f) u), (eq_nullable (f_created_by f) u),
           (has_role (user_roles d) u super_admin); reflexivity.
Qed.

Lemma private_folder_visibility_witness :
  f_access_level scenario_F = private
  /\ canView scenario_roles [] 2 scenario_F = false
  /\ canView scenario_roles [] 3 scenario_F = true.
Proof.
  split; [reflexivity|split].
  - exact (eq_trans (private_folder_visibility
                       {| user_roles := scenario_roles; profiles := []; folders := [];
                          folder_permissions := []; documents := []; invitations := [];
                          auth_users := [] |} 2 scenario_F eq_refl) eq_refl).
  - exact (eq_trans (private_folder_visibility
                       {| user_roles := scenario_roles; profiles := []; folders := [];
                          folder_permissions := []; documents := []; invitations := [];
                          auth_users := [] |} 3 scenario_F eq_refl) eq_refl).
Defined.

(** ** C3: custom folders *)

(** C3, as stated, fails: the creator (user 2, [reader]) of a [custom]
    folder owned by user 1, without a grant, does not pass [canView]. *)
Lemma custom_folder_creator_counterexample :
  ~ (forall (d : db) (u : uid) (f : folder),
       f_access_level f = custom ->
       (canView (user_roles d) (folder_permissions d) u f = true
        <-> f_created_by f = Some u
            \/ has_role (user_roles d) u super_admin = true
            \/ has_grant (folder_permissions d) (f_id f) u = true)).
Proof.
  intro H.
  set (d := {| user_roles := [{| ur_user_id := 2; ur_role := reader |}];
               profiles := []; folders := []; folder_permissions := [];
               documents := []; invitations := []; auth_users := [] |}).
  set (f := {| f_id := 1; f_user_id := 1; f_access_level := custom;
               f_created_by := Some 2 |}).
  destruct (H d 2 f eq_refl) as [_ Hfrom].
  specialize (Hfrom (or_introl eq_refl)).
  vm_compute in Hfrom; discriminate.
Qed.

(** C3 (amended). A [custom] folder is visible to exactly its owner
    ([user_id]), the [super_admin] users and the users holding a
    [folder_permissions] row for it; its [created_by] is not consulted. *)
Theorem custom_folder_visibility (d : db) (u : uid) (f : folder)
    (Hcustom : f_access_level f = custom) :
  canView (user_roles d) (folder_permissions d) u f
  = Nat.eqb (f_user_id f) u || has_role (user_roles d) u super_admin
    || has_grant (folder_permissions d) (f_id f) u.
Proof.
  unfold canView; rewrite Hcustom; simpl.
  rewrite !orb_false_r; reflexivity.
Qed.

Lemma custom_folder_visibility_witness :
  f_access_level {| f_id := 1; f_user_id := 1; f_access_level := custom;
                    f_created_by := Some 2 |} = custom
  /\ canView [] [{| fp_folder_id := 1; fp_user_id := 4 |}] 4
       {| f_id := 1; f_user_id := 1; f_access_level := custom; f_created_by := Some 2 |}
     = true.
Proof.
  split; [reflexivity|].
  exact (eq_trans (custom_folder_visibility
                     {| user_roles := []; profiles := []; folders := [];
                        folder_permissions := [{| fp_folder_id := 1; fp_user_id := 4 |}];
                        documents := []; invitations := []; auth_users := [] |} 4
                     {| f_id := 1; f_user_id := 1; f_access_level := custom;
                        f_created_by := Some 2 |} eq_refl) eq_refl).
Defined.

(** ** C4: managing folder grants *)

(** C4. A user whose resolved role is below [admin] is not offered the
    access dialog ([canManageAccess] is false), and every grant-management
    statement of theirs is refused: deleting a folder's grants and
    inserting grant rows both fail with [42P17] and change nothing. (The
    refusal comes from the policy expansion [folder_permissions] ->
    [folders] -> [folder_permissions], which does not depend on the
    role.) *)
Theorem grant_management_below_admin (d : db) (u : uid)
    (Hbelow : hasRole (fetchRole (user_roles d) u) (Some admin) = false) :
  canManageAccess (fetchRole (user_roles d) u) = false
  /\ (forall folderId, exec_folder_permissions_delete d u folderId = StmtError "42P17"%string)
  /\ (forall rows, exec_folder_permissions_insert d u rows = StmtError "42P17"%string).
Proof.
  split; [exact Hbelow|split].
  - intro folderId; unfold exec_folder_permissions_delete.
    rewrite rls_error_folder_permissions; reflexivity.
  - intro rows; unfold exec_folder_permissions_insert.
    rewrite rls_error_folder_permissions; reflexivity.
Qed.

Lemma grant_management_below_admin_witness :
  hasRole (fetchRole (user_roles grant_db) 4) (Some admin) = false
  /\ exec_folder_permissions_insert grant_db 4 [{| fp_folder_id := 1; fp_user_id := 3 |}]
     = StmtError "42P17"%string.
Proof.
  split; [reflexivity|].
  apply (grant_management_below_admin grant_db 4 eq_refl).
Defined.

(** Statements on the other tables pass the rewriter, and so does a
    [folders] insert without [RETURNING]. *)
Example rls_error_other_relations :
  rls_error rel_user_roles cmd_update true = false
  /\ rls_error rel_invitations cmd_select true = false
  /\ rls_error rel_profiles cmd_select true = false
  /\ rls_error rel_folders cmd_insert false = false.
Proof. repeat split. Qed.

(** Admins are refused as well: the [42P17] does not depend on the
    role. *)
Example admin_grant_insert_refused :
  hasRole (fetchRole (user_roles folders_db) 1) (Some admin) = true
  /\ exec_folder_permissions_insert folders_db 1 [{| fp_folder_id := 5; fp_user_id := 3 |}]
     = StmtError "42P17"%string.
Proof. split; reflexivity. Qed.

(** ** C9: folder deletion *)

(** C9. Deleting a folder is one statement: every folder the statement
    removes takes all of its [folder_permissions] rows with it and leaves
    no document pointing at it, and a state in which every grant and every
    document points at an existing folder stays so. *)
Theorem delete_folder_cleans_references (d : db) (u : uid) (folderId : nat)
    (Hok : folder_refs_ok d) :
  (forall f, In f (folders d) -> folder_deleted d u folderId f = true ->
     (forall fp, In fp (folder_permissions (delete_folder d u folderId)) ->
                 fp_folder_id fp <> f_id f)
     /\ (forall doc, In doc (documents (delete_folder d u folderId)) ->
                     d_folder_id doc <> Some (f_id f)))
  /\ folder_refs_ok (delete_folder d u folderId).
Proof.
  unfold delete_folder; cbn zeta; cbn [folders folder_permissions documents].
  set (P := folder_deleted d u folderId).
  split.
  - intros f Hin HP.
    pose proof (deleted_id_gone P _ f Hin HP) as Hg.
    split.
    + intros fp Hfp Heq.
      unfold folder_permissions_on_folder_delete in Hfp.
      apply filter_In in Hfp as [_ Hneg]; apply negb_true_iff in Hneg.
      rewrite Heq in Hneg; congruence.
    + intros doc Hdoc.
      unfold documents_on_folder_delete in Hdoc.
      apply in_map_iff in Hdoc as [doc0 [<- Hin0]].
      destruct (d_folder_id doc0) as [n|] eqn:E; simpl.
      * destruct (existsb (Nat.eqb n) (folder_ids (filter P (folders d)))) eqn:Ex;
          simpl; [discriminate|].
        rewrite E; intro Heq; injection Heq as ->; congruence.
      * rewrite E; discriminate.
  - destruct Hok as [Hgr Hdoc].
    split.
    + intros fp Hfp.
      unfold folder_permissions_on_folder_delete in Hfp.
      apply filter_In in Hfp as [Hin Hneg]; apply negb_true_iff in Hneg.
      apply folder_survives; [exact Hneg|].
      apply Hgr; exact Hin.
    + intros doc fid Hin Hf.
      unfold documents_on_folder_delete in Hin.
      apply in_map_iff in Hin as [doc0 [<- Hin0]].
      destruct (d_folder_id doc0) as [n|] eqn:E; simpl in Hf.
      * destruct (existsb (Nat.eqb n) (folder_ids (filter P (folders d)))) eqn:Ex;
          simpl in Hf; [discriminate|].
        rewrite E in Hf; injection Hf as ->.
        apply folder_survives; [exact Ex|].
        apply (Hdoc doc0); assumption.
      * rewrite E in Hf; discriminate.
Qed.

Lemma folders_db_refs_ok : folder_refs_ok folders_db.
Proof.
  split.
  - intros fp H; simpl in H; destruct H as [<- | []]; simpl; auto.
  - intros doc fid H Hf; simpl in H.
    destruct H as [<- | [<- | []]]; simpl in Hf; injection Hf as <-; simpl; auto.
Qed.

Lemma delete_folder_cleans_references_witness :
  folder_refs_ok folders_db
  /\ folder_refs_ok (delete_folder folders_db 1 5)
  /\ folder_permissions (delete_folder folders_db 1 5) = []
  /\ documents (delete_folder folders_db 1 5)
     = [{| d_id := 1; d_folder_id := None |}; {| d_id := 2; d_folder_id := Some 6 |}].
Proof.
  split; [exact folders_db_refs_ok|].
  split; [apply (delete_folder_cleans_references folders_db 1 5 folders_db_refs_ok)|].
  split; reflexivity.
Defined.

(** ** C10: reading invitations *)

(** C10. Whoever asks, signed in or not and whatever their role, the
    policies of [invitations] let [SELECT *] return every row, with its
    [token], [email] and [role]. *)
Theorem select_invitations_all (d : db) (u : option uid) :
  select_invitations d u = invitations d.
Proof.
  unfold select_invitations, invitations_select_policy.
  induction (invitations d) as [|i invs IH]; simpl; [reflexivity|].
  rewrite IH, orb_true_r; reflexivity.
Qed.

(** ** Invitation lemmas *)

Lemma parse_invite_role_not_super_admin (s : string) (r : app_role) :
  parse_invite_role s = Some r -> r <> super_admin.
Proof.
  unfold parse_invite_role.
  destruct (String.eqb s "admin"); [intro H; injection H as <-; discriminate|].
  destruct (String.eqb s "editor"); [intro H; injection H as <-; discriminate|].
  destruct (String.eqb s "reader"); [intro H; injection H as <-; discriminate|].
  discriminate.
Qed.

Lemma inviteSchema_not_super_admin (is_email : string -> bool) (email role : string)
    (r : app_role) :
  inviteSchema is_email email role = Some r -> r <> super_admin.
Proof.
  unfold inviteSchema; destruct (is_email email && _); [|discriminate].
  apply parse_invite_role_not_super_admin.
Qed.

(** [invite_handleSubmit] either leaves [invitations] alone or appends one
    row whose role is the validated one. *)
Lemma invite_handleSubmit_invitations (is_email : string -> bool) (d : db) (caller : uid)
    (email role : string) (now : N) (new_id new_token : nat) :
  invitations (fst (invite_handleSubmit is_email d caller email role now new_id new_token))
  = invitations d
  \/ exists r i, inviteSchema is_email email role = Some r /\ inv_role i = r
       /\ invitations (fst (invite_handleSubmit is_email d caller email role now new_id new_token))
          = invitations d ++ [i].
Proof.
  unfold invite_handleSubmit.
  destruct (inviteSchema is_email email role) as [r|] eqn:Hs; [|left; reflexivity].
  cbn zeta.
  destruct (maybeSingle (filter _ (profiles d))); [left; reflexivity|].
  destruct (maybeSingle (filter _ (invitations d))); [left; reflexivity|].
  destruct (_ && _); [|left; reflexivity].
  right; eexists; eexists; split; [reflexivity|split; [|reflexivity]]; reflexivity.
Qed.

Lemma stamp_accepted_roles (id : nat) (now : N) (invs : list invitation) (i : invitation) :
  In i (stamp_accepted id now invs) -> exists i0, In i0 invs /\ inv_role i = inv_role i0.
Proof.
  unfold stamp_accepted; intro H; apply in_map_iff in H as [i0 [<- Hin]].
  exists i0; split; [exact Hin|]; destruct (Nat.eqb (inv_id i0) id); reflexivity.
Qed.

(** [accept_handleSubmit] only touches [invitations] through the stamp. *)
Lemma accept_handleSubmit_invitations (d : db) (invitation : option invitation)
    (fullName password confirmPassword : string) (now : N) (signUp : option uid)
    (role_ok stamp_ok : bool) :
  invitations (fst (accept_handleSubmit d invitation fullName password confirmPassword
                      now signUp role_ok stamp_ok)) = invitations d
  \/ exists id, invitations (fst (accept_handleSubmit d invitation fullName password
                                    confirmPassword now signUp role_ok stamp_ok))
                = stamp_accepted id now (invitations d).
Proof.
  unfold accept_handleSubmit.
  destruct (negb _); [left; reflexivity|].
  destruct invitation as [inv|]; [|left; reflexivity].
  destruct signUp as [u|]; [|left; reflexivity].
  cbn zeta; destruct (negb role_ok); [left; reflexivity|].
  destruct stamp_ok; [right; exists (inv_id inv); reflexivity|left; reflexivity].
Qed.

(** [accept_handleSubmit] adds at most the role row of the invitation. *)
Lemma accept_handleSubmit_user_roles (d : db) (inv : invitation)
    (fullName password confirmPassword : string) (now : N) (signUp : option uid)
    (role_ok stamp_ok : bool) :
  user_roles (fst (accept_handleSubmit d (Some inv) fullName password confirmPassword
                     now signUp role_ok stamp_ok)) = user_roles d
  \/ exists u, user_roles (fst (accept_handleSubmit d (Some inv) fullName password
                                  confirmPassword now signUp role_ok stamp_ok))
               = user_roles d ++ [{| ur_user_id := u; ur_role := inv_role inv |}].
Proof.
  unfold accept_handleSubmit.
  destruct (negb _); [left; reflexivity|].
  destruct signUp as [u|]; [|left; reflexivity].
  cbn zeta; destruct (negb role_ok); [left; reflexivity|].
  right; exists u; destruct stamp_ok; reflexivity.
Qed.

Lemma fetchInvitation_In (d : db) (token : nat) (now : N) (i : invitation) :
  fetchInvitation d token now = FetchOk i -> In i (invitations d).
Proof.
  unfold fetchInvitation.
  destruct (filter _ (invitations d)) as [|x [|y l]] eqn:E; simpl; try discriminate.
  destruct (inv_accepted_at x); [discriminate|].
  destruct (inv_expires_at x <? now)%N; [discriminate|].
  intro H; injection H as <-.
  assert (In x (filter (fun i => Nat.eqb (inv_token i) token) (invitations d))) as Hx
    by (rewrite E; left; reflexivity).
  apply filter_In in Hx; tauto.
Qed.

(** ** C8: no [super_admin] through invitations *)

(** C8. In every state reachable through the application's operations,
    each invitation row has a role other than [super_admin], and accepting
    an invitation shown by [fetchInvitation] adds no [super_admin] role
    row. *)
Theorem invitations_never_super_admin (is_email : string -> bool) (d : db)
    (Hr : reachable is_email d) :
  (forall i, In i (invitations d) -> inv_role i <> super_admin)
  /\ (forall token t i, fetchInvitation d token t = FetchOk i ->
        forall d0 fullName password confirmPassword now signUp role_ok stamp_ok row,
          In row (user_roles (fst (accept_handleSubmit d0 (Some i) fullName password
                                    confirmPassword now signUp role_ok stamp_ok))) ->
          In row (user_roles d0) \/ ur_role row <> super_admin).
Proof.
  assert (Hinv : forall i, In i (invitations d) -> inv_role i <> super_admin).
  { induction Hr as [d Hnil | d caller email role now new_id new_token Hr IH
                     | d inv fullName password confirmPassword now signUp role_ok stamp_ok Hr IH
                     | d caller id Hr IH | d d' Hr IH Heq].
    - rewrite Hnil; intros i [].
    - destruct (invite_handleSubmit_invitations is_email d caller email role now new_id new_token)
        as [-> | [r [i0 [Hs [Hrole ->]]]]]; [exact IH|].
      intros i Hi; apply in_app_or in Hi as [Hi | [<- | []]]; [exact (IH i Hi)|].
      rewrite Hrole; exact (inviteSchema_not_super_admin _ _ _ _ Hs).
    - destruct (accept_handleSubmit_invitations d inv fullName password confirmPassword now
                  signUp role_ok stamp_ok) as [-> | [id ->]]; [exact IH|].
      intros i Hi; apply stamp_accepted_roles in Hi as [i0 [Hin ->]]; exact (IH i0 Hin).
    - unfold revoke_invitation; destruct (has_role _ _ _); [|exact IH].
      intros i Hi; apply filter_In in Hi as [Hi _]; exact (IH i Hi).
    - rewrite Heq; exact IH. }
  split; [exact Hinv|].
  intros token t i Hfetch d0 fullName password confirmPassword now signUp role_ok stamp_ok row Hrow.
  destruct (accept_handleSubmit_user_roles d0 i fullName password confirmPassword now signUp
              role_ok stamp_ok) as [E | [u E]]; rewrite E in Hrow; [left; exact Hrow|].
  apply in_app_or in Hrow as [Hrow | [<- | []]]; [left; exact Hrow|].
  right; simpl; exact (Hinv i (fetchInvitation_In _ _ _ _ Hfetch)).
Qed.

Lemma invitations_never_super_admin_witness :
  reachable any_email invite_db1
  /\ invitations invite_db1 <> []
  /\ (forall i, In i (invitations invite_db1) -> inv_role i <> super_admin).
Proof.
  assert (Hr : reachable any_email invite_db1).
  { apply reach_create; apply reach_init; reflexivity. }
  split; [exact Hr|split; [vm_compute; discriminate|]].
  apply (invitations_never_super_admin any_email invite_db1 Hr).
Defined.

(** ** C7: duplicate checks of invitation creation *)

(** C7, as stated, fails: the only invitation for [bob@example.com]
    expired at time 100 without being accepted, no account has that
    e-mail, and a [super_admin] asking at time 1000 with valid input is
    still refused with the pending-invitation error. *)
Lemma expired_invitation_blocks_counterexample :
  ~ (forall (is_email : string -> bool) (d : db) (caller : uid) (email role : string)
            (now : N) (new_id new_token : nat),
       (forall p, In p (profiles d) -> p_email p <> email) ->
       (forall i, In i (invitations d) -> inv_email i = email ->
                  inv_accepted_at i = None -> (inv_expires_at i < now)%N) ->
       snd (invite_handleSubmit is_email d caller email role now new_id new_token)
       <> InvitePendingExists).
Proof.
  intro H.
  apply (H any_email invite_db_expired 1 "bob@example.com"%string "editor"%string 1000%N 2 8).
  - intros p Hp; simpl in Hp; destruct Hp as [<- | []]; discriminate.
  - intros i Hi _ _; simpl in Hi; destruct Hi as [<- | []]; simpl; lia.
  - vm_compute; reflexivity.
Qed.

(** C7 (amended). For a [super_admin] caller and valid input, creating an
    invitation fails with the already-registered error when exactly one
    profile has that e-mail (active or not), and, when no profile has it,
    fails with the pending-invitation error when exactly one unaccepted
    invitation for that e-mail exists, whatever its [expires_at]: expiry
    is not consulted by the duplicate check. *)
Theorem invite_duplicate_checks (is_email : string -> bool) (d : db) (caller : uid)
    (email role : string) (now : N) (new_id new_token : nat) (r : app_role)
    (Hvalid : inviteSchema is_email email role = Some r)
    (Hsa : has_role (user_roles d) caller super_admin = true) :
  (forall p, filter (fun p => String.eqb (p_email p) email) (profiles d) = [p] ->
     snd (invite_handleSubmit is_email d caller email role now new_id new_token)
     = InviteAlreadyRegistered)
  /\ (forall i, filter (fun p => String.eqb (p_email p) email) (profiles d) = [] ->
       filter (fun i => String.eqb (inv_email i) email
                        && match inv_accepted_at i with None => true | Some _ => false end)
              (invitations d) = [i] ->
       snd (invite_handleSubmit is_email d caller email role now new_id new_token)
       = InvitePendingExists).
Proof.
  assert (Hf : filter (fun p => profiles_select_policy (user_roles d) caller p
                                && String.eqb (p_email p) email) (profiles d)
               = filter (fun p => String.eqb (p_email p) email) (profiles d)).
  { apply filter_ext; intro p; unfold profiles_select_policy.
    rewrite Hsa, orb_true_r; reflexivity. }
  unfold invite_handleSubmit; rewrite Hvalid; cbn zeta; rewrite Hf.
  split.
  - intros p Hp; rewrite Hp; reflexivity.
  - intros i Hp Hi; rewrite Hp; simpl; rewrite Hi; reflexivity.
Qed.

Lemma invite_duplicate_checks_witness :
  inviteSchema any_email "bob@example.com"%string "editor"%string = Some editor
  /\ has_role (user_roles invite_db_expired) 1 super_admin = true
  /\ snd (invite_handleSubmit any_email invite_db_expired 1 "bob@example.com"%string "editor"%string
            1000%N 2 8) = InvitePendingExists.
Proof.
  split; [reflexivity|split; [reflexivity|]].
  apply (invite_duplicate_checks any_email invite_db_expired 1 "bob@example.com"%string "editor"%string
           1000%N 2 8 editor eq_refl eq_refl) with (i := bob_invitation);
    reflexivity.
Defined.

(** ** C6: accepting an invitation *)

(** C6, as stated, fails: the form is valid and the invitation is still
    valid at time 50, the sign-up creates account 9, the role insert
    fails; the call fails but the account stays in [auth.users]. *)
Lemma accept_not_atomic_counterexample :
  ~ (forall (d : db) (inv : invitation) (fullName password confirmPassword : string)
            (now : N) (signUp : option uid) (role_ok stamp_ok : bool),
       let r := accept_handleSubmit d (Some inv) fullName password confirmPassword
                  now signUp role_ok stamp_ok in
       (fetchInvitation d (inv_token inv) now <> FetchOk inv -> snd r <> AcceptCreated)
       /\ (snd r <> AcceptCreated -> fst r = d)
       /\ (snd r = AcceptCreated ->
             (exists u, In {| ur_user_id := u; ur_role := inv_role inv |} (user_roles (fst r)))
             /\ forall i, In i (invitations (fst r)) -> inv_id i = inv_id inv ->
                          inv_accepted_at i = Some now)).
Proof.
  intro H.
  destruct (H accept_db bob_invitation "Bob Martin"%string "password1"%string
              "password1"%string 50%N (Some 9) false true) as [_ [Hrb _]].
  vm_compute in Hrb.
  assert (Hne : AcceptFailed <> AcceptCreated) by discriminate.
  specialize (Hrb Hne); discriminate.
Qed.

(** The submission does not look at the invitation again: an invitation
    shown at time 50 and expired at time 200 is still accepted at 200. *)
Example accept_after_expiry_succeeds :
  fetchInvitation accept_db 7 50 = FetchOk bob_invitation
  /\ fetchInvitation accept_db 7 200 = FetchExpired
  /\ snd (accept_handleSubmit accept_db (Some bob_invitation) "Bob Martin"%string
            "password1"%string "password1"%string 200%N (Some 9) true true) = AcceptCreated.
Proof. vm_compute; auto. Qed.

(** C6 (amended). For an invitation that still resolves at submission
    (its token names one row, [accepted_at] unset, [now <= expires_at]),
    once the form validates, accepting it runs three separate steps: sign-up of an account with the
    invitation's e-mail, insert of a [user_roles] row with the
    invitation's role, and the [accepted_at = now] stamp. They are not
    atomic: a failed sign-up changes nothing; a failed role insert after
    a successful sign-up fails the call but leaves the account, with no
    role row and the invitation unstamped; when all steps succeed the
    account exists with the invitation's role and [accepted_at = now]. *)
Theorem accept_sequential_steps (d : db) (inv : invitation)
    (fullName password confirmPassword : string) (now : N) (u : uid)
    (Hform : signupSchema fullName password confirmPassword = true)
    (Hres : fetchInvitation d (inv_token inv) now = FetchOk inv) :
  (forall role_ok stamp_ok,
     accept_handleSubmit d (Some inv) fullName password confirmPassword now None
       role_ok stamp_ok = (d, AcceptFailed))
  /\ (forall stamp_ok,
        accept_handleSubmit d (Some inv) fullName password confirmPassword now (Some u)
          false stamp_ok
        = (set_auth_users d (auth_users d ++
             [{| au_id := u; au_email := inv_email inv; au_full_name := fullName |}]),
           AcceptFailed))
  /\ (let (d', out) := accept_handleSubmit d (Some inv) fullName password confirmPassword
                         now (Some u) true true in
      out = AcceptCreated
      /\ auth_users d' = auth_users d ++
           [{| au_id := u; au_email := inv_email inv; au_full_name := fullName |}]
      /\ user_roles d' = user_roles d ++ [{| ur_user_id := u; ur_role := inv_role inv |}]
      /\ invitations d' = stamp_accepted (inv_id inv) now (invitations d)).
Proof.
  unfold accept_handleSubmit; rewrite Hform; simpl.
  split; [reflexivity|split; [reflexivity|]].
  repeat split.
Qed.

Lemma accept_sequential_steps_witness :
  signupSchema "Bob Martin" "password1" "password1" = true
  /\ fetchInvitation accept_db 7 50 = FetchOk bob_invitation
  /\ accept_handleSubmit accept_db (Some bob_invitation) "Bob Martin"%string
       "password1"%string "password1"%string 50%N (Some 9) false true
     = (set_auth_users accept_db
          [{| au_id := 9; au_email := "bob@example.com"; au_full_name := "Bob Martin" |}],
        AcceptFailed).
Proof.
  split; [reflexivity|split; [reflexivity|]].
  apply (accept_sequential_steps accept_db bob_invitation "Bob Martin"%string
           "password1"%string "password1"%string 50%N 9 eq_refl eq_refl).
Defined.

(** * Further properties of the code *)

(** ** Helper lemmas *)

Lemma existsb_filter {A} (p q : A -> bool) (l : list A) :
  existsb (fun x => p x && q x) l = existsb q (filter p l).
Proof.
  induction l as [|x l IH]; simpl; [reflexivity|].
  destruct (p x); simpl; rewrite IH; reflexivity.
Qed.

Lemma existsb_ext {A} (p q : A -> bool) (l : list A) :
  (forall x, p x = q x) -> existsb p l = existsb q l.
Proof.
  intro H; induction l as [|x l IH]; simpl; [reflexivity|]; rewrite H, IH; reflexivity.
Qed.

Lemma filter_none {A} (p : A -> bool) (l : list A) :
  existsb p l = false -> filter p l = [].
Proof.
  induction l as [|x l IH]; simpl; [reflexivity|].
  destruct (p x); simpl; [discriminate|exact IH].
Qed.

Lemma filter_filter_comm {A} (p q : A -> bool) (l : list A) :
  filter p (filter q l) = filter q (filter p l).
Proof.
  induction l as [|x l IH]; simpl; [reflexivity|].
  destruct (q x) eqn:Hq, (p x) eqn:Hp; simpl; rewrite ?Hq, ?Hp, IH; reflexivity.
Qed.

Lemma maybeSingle_Some {A} (l : list A) (x : A) :
  maybeSingle l = Some x -> l = [x].
Proof.
  destruct l as [|a [|b l]]; simpl; try discriminate.
  intro H; injection H as ->; reflexivity.
Qed.

Lemma existsb_eqb_In (u : nat) (l : list nat) :
  existsb (Nat.eqb u) l = true <-> In u l.
Proof.
  rewrite existsb_exists; split.
  - intros [x [Hx E]]; apply Nat.eqb_eq in E; subst; exact Hx.
  - intro H; exists u; split; [exact H|apply Nat.eqb_refl].
Qed.

Lemma filter_neq_absent (u : nat) (l : list nat) :
  ~ In u l -> filter (fun id => negb (Nat.eqb id u)) l = l.
Proof.
  induction l as [|x l IH]; simpl; intro H; [reflexivity|].
  destruct (Nat.eqb x u) eqn:E; simpl.
  - apply Nat.eqb_eq in E; subst; exfalso; apply H; left; reflexivity.
  - rewrite IH; [reflexivity|]; intro H'; apply H; right; exact H'.
Qed.

Lemma folder_permissions_on_folder_delete_nil (fps : list folder_permission) :
  folder_permissions_on_folder_delete [] fps = fps.
Proof.
  unfold folder_permissions_on_folder_delete.
  induction fps as [|fp fps IH]; simpl; [reflexivity|]; f_equal; exact IH.
Qed.

Lemma documents_on_folder_delete_nil (docs : list document) :
  documents_on_folder_delete [] docs = docs.
Proof.
  unfold documents_on_folder_delete.
  induction docs as [|doc docs IH]; simpl; [reflexivity|]; f_equal; [|exact IH].
  destruct (d_folder_id doc); reflexivity.
Qed.

Lemma rolesMap_get_none (roles : list user_role_row) (id : uid) :
  roles_of roles id = [] -> rolesMap_get roles id = None.
Proof.
  unfold roles_of; induction roles as [|r rs IH]; simpl; intro H; [reflexivity|].
  destruct (Nat.eqb (ur_user_id r) id); [discriminate|].
  rewrite IH by exact H; reflexivity.
Qed.

Lemma roles_of_change (roles : list user_role_row) (u e : uid) (r : app_role) :
  roles_of (map (fun ur => if Nat.eqb (ur_user_id ur) e
                           then {| ur_user_id := ur_user_id ur; ur_role := r |}
                           else ur) roles) u
  = map (fun ur => if Nat.eqb (ur_user_id ur) e
                   then {| ur_user_id := ur_user_id ur; ur_role := r |}
                   else ur) (roles_of roles u).
Proof.
  unfold roles_of; induction roles as [|a rs IH]; simpl; [reflexivity|].
  destruct (Nat.eqb (ur_user_id a) e) eqn:Ee; simpl;
    destruct (Nat.eqb (ur_user_id a) u); simpl; rewrite ?Ee, IH; reflexivity.
Qed.

Lemma filter_token_stamp (id : nat) (now : N) (tok : nat) (invs : list invitation) :
  filter (fun i => Nat.eqb (inv_token i) tok) (stamp_accepted id now invs)
  = stamp_accepted id now (filter (fun i => Nat.eqb (inv_token i) tok) invs).
Proof.
  unfold stamp_accepted; induction invs as [|a invs IH]; simpl; [reflexivity|].
  destruct (Nat.eqb (inv_id a) id) eqn:Ei; simpl;
    destruct (Nat.eqb (inv_token a) tok); simpl; rewrite ?Ei, IH; reflexivity.
Qed.

(** ** Role helpers *)

(** With at most one [user_roles] row for the user ([UNIQUE (user_id)]),
    the SQL function [has_role_or_higher] of the latest migration answers
    as the client's [hasRole] on the role [fetchRole] resolves. *)
Theorem has_role_or_higher_matches_client (roles : list user_role_row) (u : uid)
    (m : app_role) (Hunique : List.length (roles_of roles u) <= 1) :
  has_role_or_higher roles u m = hasRole (fetchRole roles u) (Some m).
Proof.
  unfold has_role_or_higher, fetchRole.
  rewrite (existsb_filter (fun ur => Nat.eqb (ur_user_id ur) u)).
  change (filter (fun ur => Nat.eqb (ur_user_id ur) u) roles) with (roles_of roles u).
  destruct (roles_of roles u) as [|row [|row' rest]]; simpl in *;
    [reflexivity|destruct m, (ur_role row); reflexivity|lia].
Qed.

Lemma has_role_or_higher_matches_client_witness :
  List.length (roles_of scenario_roles 2) <= 1
  /\ has_role_or_higher scenario_roles 2 editor
     = hasRole (fetchRole scenario_roles 2) (Some editor).
Proof.
  split; [simpl; lia|].
  apply (has_role_or_higher_matches_client scenario_roles 2 editor); simpl; lia.
Defined.

(** The first definition of [has_role_or_higher] and its [CASE] rewrite in
    the later migration give the same answer on every table, user and
    minimum role. *)
Theorem has_role_or_higher_versions_agree (roles : list user_role_row) (u : uid)
    (m : app_role) :
  has_role_or_higher_v1 roles u m = has_role_or_higher roles u m.
Proof.
  unfold has_role_or_higher_v1, has_role_or_higher.
  apply existsb_ext; intro row.
  destruct (Nat.eqb (ur_user_id row) u), m, (ur_role row); reflexivity.
Qed.

(** The capabilities written as role tests in [PermissionsProvider] are
    thresholds as well: [canViewUsers] is [hasRole('admin')],
    [canManageUsers] is [hasRole('super_admin')], and [canManageBilling]
    equals [canManageUsers]. *)
Theorem permissions_exact_caps_as_thresholds (role : AppRole) :
  canViewUsers (permissions role) = hasRole role (Some admin)
  /\ canManageUsers (permissions role) = hasRole role (Some super_admin)
  /\ canManageBilling (permissions role) = canManageUsers (permissions role).
Proof. destruct role as [[]|]; (split; [|split]); reflexivity. Qed.

(** ** Folder deletion *)

(** A [folders] delete by a user who is neither [super_admin] nor [admin]
    changes nothing: no folder, grant or document is touched. *)
Theorem delete_folder_below_admin_noop (d : db) (u : uid) (folderId : nat)
    (H : folders_delete_policy (user_roles d) u = false) :
  delete_folder d u folderId = d.
Proof.
  assert (Hf : forall f, folder_deleted d u folderId f = false)
    by (intro f; unfold folder_deleted; rewrite H, andb_false_r; reflexivity).
  assert (E1 : forall fs, filter (folder_deleted d u folderId) fs = []).
  { induction fs as [|f fs IH]; simpl; [reflexivity|]; rewrite Hf; exact IH. }
  assert (E2 : forall fs, filter (fun f => negb (folder_deleted d u folderId f)) fs = fs).
  { induction fs as [|f fs IH]; simpl; [reflexivity|]; rewrite Hf; simpl.
    rewrite IH; reflexivity. }
  unfold delete_folder; rewrite E1, E2; simpl folder_ids.
  rewrite folder_permissions_on_folder_delete_nil, documents_on_folder_delete_nil.
  destruct d; reflexivity.
Qed.

Lemma delete_folder_below_admin_noop_witness :
  folders_delete_policy (user_roles grant_db) 4 = false
  /\ delete_folder grant_db 4 1 = grant_db.
Proof.
  split; [reflexivity|].
  apply (delete_folder_below_admin_noop grant_db 4 1); reflexivity.
Defined.

(** After a successful [handleDeleteFolder] (permission held, folder in
    the list, no error), the page lists no folder with that id, no
    document refers to it, the documents keep their ids, and the page is no
    longer inside it. *)
Theorem handleDeleteFolder_local_state (perms : Permissions) (pg : documents_page)
    (folderId : nat) (Hperm : canDeleteFolders perms = true)
    (Hin : exists f, In f (pg_folders pg) /\ f_id f = folderId) :
  (forall f, In f (pg_folders (handleDeleteFolder perms pg folderId false)) ->
             f_id f <> folderId)
  /\ (forall doc, In doc (pg_documents (handleDeleteFolder perms pg folderId false)) ->
                  d_folder_id doc <> Some folderId)
  /\ map d_id (pg_documents (handleDeleteFolder perms pg folderId false))
     = map d_id (pg_documents pg)
  /\ pg_currentFolderId (handleDeleteFolder perms pg folderId false) <> Some folderId.
Proof.
  unfold handleDeleteFolder; rewrite Hperm; simpl negb; cbv iota.
  destruct (find (fun f => Nat.eqb (f_id f) folderId) (pg_folders pg)) as [found|] eqn:Ef.
  2:{ exfalso; destruct Hin as [g [Hg Hid]].
      pose proof (find_none _ _ Ef g Hg) as C; simpl in C.
      rewrite Hid, Nat.eqb_refl in C; discriminate. }
  simpl; split; [|split; [|split]].
  - intros g Hg; apply filter_In in Hg as [_ Hg].
    destruct (Nat.eqb (f_id g) folderId) eqn:E; [discriminate|].
    apply Nat.eqb_neq; exact E.
  - intros doc Hdoc; apply in_map_iff in Hdoc as [doc0 [<- _]].
    destruct (option_nat_eqb (d_folder_id doc0) (Some folderId)) eqn:E; simpl;
      [discriminate|].
    intro C; rewrite C in E; simpl in E; rewrite Nat.eqb_refl in E; discriminate.
  - rewrite map_map; apply map_ext; intro doc.
    destruct (option_nat_eqb (d_folder_id doc) (Some folderId)); reflexivity.
  - destruct (option_nat_eqb (pg_currentFolderId pg) (Some folderId)) eqn:E;
      [discriminate|].
    intro C; rewrite C in E; simpl in E; rewrite Nat.eqb_refl in E; discriminate.
Qed.

Lemma handleDeleteFolder_local_state_witness :
  let pg := {| pg_folders := folders folders_db; pg_documents := documents folders_db;
               pg_currentFolderId := Some 5 |} in
  canDeleteFolders (permissions (Some admin)) = true
  /\ (exists f, In f (pg_folders pg) /\ f_id f = 5)
  /\ pg_currentFolderId (handleDeleteFolder (permissions (Some admin)) pg 5 false) <> Some 5.
Proof.
  cbv zeta.
  assert (Hex : exists f, In f (folders folders_db) /\ f_id f = 5)
    by (eexists; split; [left; reflexivity|reflexivity]).
  split; [reflexivity|split; [exact Hex|]].
  apply (handleDeleteFolder_local_state (permissions (Some admin))
           {| pg_folders := folders folders_db; pg_documents := documents folders_db;
              pg_currentFolderId := Some 5 |} 5 eq_refl Hex).
Defined.

(** [handleCreateFolder] never adds a folder, whoever calls it and
    whatever the missing [folders] insert policy answers: the
    [INSERT ... RETURNING] applies the [folders] [SELECT] policy, whose
    [folder_permissions] subquery expands [Folder creators can manage
    permissions], which reads [folders] again, and the statement fails
    with [42P17]. *)
Theorem handleCreateFolder_never_creates (d : db) (user : option uid) (perms : Permissions)
    (new_id : nat) (insert_ok : bool) :
  handleCreateFolder d user perms new_id insert_ok = d.
Proof.
  unfold handleCreateFolder.
  destruct user as [u|]; [|reflexivity].
  destruct (negb (canCreateFolders perms)); [reflexivity|].
  rewrite rls_error_folders_reading; reflexivity.
Qed.

(** ** Folder access dialog *)

(** [toggleUser] keeps a duplicate-free selection duplicate-free and flips
    the membership of the toggled user only. *)
Theorem toggleUser_flips (prev : list uid) (userId : uid) (Hnd : NoDup prev) :
  NoDup (toggleUser prev userId)
  /\ forall v, In v (toggleUser prev userId)
               <-> (v = userId /\ ~ In userId prev) \/ (v <> userId /\ In v prev).
Proof.
  unfold toggleUser.
  destruct (existsb (Nat.eqb userId) prev) eqn:E.
  - apply existsb_eqb_In in E.
    split; [apply NoDup_filter; exact Hnd|].
    intro v; rewrite filter_In; split.
    + intros [Hv Hneq]; right; split; [|exact Hv].
      intro C; subst; rewrite Nat.eqb_refl in Hneq; discriminate.
    + intros [[_ C]|[Hneq Hv]]; [contradiction|].
      split; [exact Hv|]; apply Nat.eqb_neq in Hneq; rewrite Hneq; reflexivity.
  - assert (Hn : ~ In userId prev)
      by (intro C; apply existsb_eqb_In in C; rewrite C in E; discriminate).
    split.
    + apply (Permutation_NoDup (Permutation_cons_append prev userId)).
      constructor; assumption.
    + intro v; rewrite in_app_iff; simpl; split.
      * intros [Hv|[<-|[]]]; [|left; split; [reflexivity|exact Hn]].
        right; split; [|exact Hv]; intro C; subst; contradiction.
      * intros [[-> _]|[_ Hv]]; [right; left; reflexivity|left; exact Hv].
Qed.

Lemma toggleUser_flips_witness :
  NoDup [1; 2]
  /\ NoDup (toggleUser [1; 2] 2)
  /\ forall v, In v (toggleUser [1; 2] 2) <-> (v = 2 /\ ~ In 2 [1; 2]) \/ (v <> 2 /\ In v [1; 2]).
Proof.
  assert (Hnd : NoDup [1; 2])
    by (constructor; [simpl; lia|constructor; [simpl; tauto|constructor]]).
  split; [exact Hnd|].
  apply (toggleUser_flips [1; 2] 2 Hnd).
Defined.

(** Toggling a user who is not selected, then toggling it again, gives
    back the selection unchanged. *)
Theorem toggleUser_twice_unselected (prev : list uid) (userId : uid)
    (Hn : ~ In userId prev) :
  toggleUser (toggleUser prev userId) userId = prev.
Proof.
  unfold toggleUser.
  assert (E : existsb (Nat.eqb userId) prev = false).
  { destruct (existsb (Nat.eqb userId) prev) eqn:E; [|reflexivity].
    apply existsb_eqb_In in E; contradiction. }
  rewrite E.
  assert (E' : existsb (Nat.eqb userId) (prev ++ [userId]) = true)
    by (apply existsb_eqb_In; apply in_app_iff; right; left; reflexivity).
  rewrite E', filter_app, filter_neq_absent by exact Hn.
  simpl; rewrite Nat.eqb_refl; simpl; apply app_nil_r.
Qed.

Lemma toggleUser_twice_unselected_witness :
  ~ In 3 [1; 2] /\ toggleUser (toggleUser [1; 2] 3) 3 = [1; 2].
Proof.
  assert (Hn : ~ In 3 [1; 2]) by (simpl; lia).
  split; [exact Hn|].
  apply (toggleUser_twice_unselected [1; 2] 3 Hn).
Defined.

(** [FolderAccessDialog.handleSave] never changes the database and
    always reports failure, whoever calls it and whatever the missing
    [folders] update policy answers: the update's [WHERE] clause applies
    the [folders] [SELECT] policy, the policy expansion meets [folders]
    again through [folder_permissions], and the first statement fails with
    [42P17]. *)
Theorem folder_access_handleSave_always_fails (d : db) (caller : uid) (folderId : nat)
    (lvl : folder_access_level) (sel : list uid) (update_ok : bool) :
  folder_access_handleSave d caller folderId lvl sel update_ok = (d, false).
Proof.
  unfold folder_access_handleSave, exec_folders_update_access_level.
  rewrite rls_error_folders_reading; reflexivity.
Qed.

(** ** Team page *)

(** A member with no [user_roles] row is listed with the role [reader];
    [handleChangeRole] on that member updates no row, so the member still
    has no role row and [fetchRole] still resolves no role for them. *)
Theorem team_roleless_member (d : db) (caller : uid) (p : profile) (newRole : app_role)
    (H : roles_of (user_roles d) (p_id p) = []) :
  member_role (user_roles d) p = reader
  /\ roles_of (user_roles (handleChangeRole d caller (p_id p) newRole)) (p_id p) = []
  /\ fetchRole (user_roles (handleChangeRole d caller (p_id p) newRole)) (p_id p) = None.
Proof.
  assert (Hr : roles_of (user_roles (handleChangeRole d caller (p_id p) newRole)) (p_id p) = []).
  { unfold handleChangeRole.
    destruct (has_role (user_roles d) caller super_admin); simpl; [|exact H].
    rewrite roles_of_change, H; reflexivity. }
  split; [unfold member_role; rewrite rolesMap_get_none by exact H; reflexivity|].
  split; [exact Hr|apply fetchRole_no_rows; exact Hr].
Qed.

Lemma team_roleless_member_witness :
  roles_of (user_roles invite_db0) 5 = []
  /\ member_role (user_roles invite_db0)
       {| p_id := 5; p_email := "eve@example.com"; p_is_active := true |} = reader.
Proof.
  split; [reflexivity|].
  apply (team_roleless_member invite_db0 1
           {| p_id := 5; p_email := "eve@example.com"; p_is_active := true |} editor).
  reflexivity.
Defined.

(** ** Invitation round trips *)

(** When [InviteUserDialog.handleSubmit] reports a created invitation, the
    caller is a super admin, and token uniqueness of the table is kept. *)
Theorem invite_created_by_super_admin (is_email : string -> bool) (d : db) (caller : uid)
    (email role : string) (now : N) (new_id new_token tok : nat)
    (Hout : snd (invite_handleSubmit is_email d caller email role now new_id new_token)
            = InviteCreated tok)
    (Huniq : NoDup (map inv_token (invitations d))) :
  has_role (user_roles d) caller super_admin = true
  /\ NoDup (map inv_token (invitations (fst (invite_handleSubmit is_email d caller email role
                                                                 now new_id new_token)))).
Proof.
  revert Hout; unfold invite_handleSubmit.
  destruct (inviteSchema is_email email role) as [r|]; [|discriminate].
  cbn zeta.
  destruct (maybeSingle (filter _ (profiles d))); [discriminate|].
  destruct (maybeSingle (filter _ (invitations d))); [discriminate|].
  destruct (has_role (user_roles d) caller super_admin) eqn:Hsa; [|discriminate].
  destruct (existsb (fun i => Nat.eqb (inv_token i) new_token) (invitations d)) eqn:Ht;
    [discriminate|].
  intros _; split; [reflexivity|]; simpl.
  rewrite map_app; simpl.
  apply (Permutation_NoDup (Permutation_cons_append _ new_token)).
  constructor; [|exact Huniq].
  intro C; apply in_map_iff in C as [i [Hi Hin]].
  assert (Hex : existsb (fun i => Nat.eqb (inv_token i) new_token) (invitations d) = true)
    by (apply existsb_exists; exists i; split; [exact Hin|rewrite Hi; apply Nat.eqb_refl]).
  rewrite Hex in Ht; discriminate.
Qed.

Lemma invite_created_by_super_admin_witness :
  snd (invite_handleSubmit any_email invite_db0 1 "bob@example.com"%string "editor"%string
         0 1 7) = InviteCreated 7
  /\ NoDup (map inv_token (invitations invite_db0))
  /\ has_role (user_roles invite_db0) 1 super_admin = true.
Proof.
  assert (Hu : NoDup (map inv_token (invitations invite_db0))) by constructor.
  split; [reflexivity|split; [exact Hu|]].
  apply (invite_created_by_super_admin any_email invite_db0 1 "bob@example.com"%string
           "editor"%string 0 1 7 7 eq_refl Hu).
Defined.

(** The token returned by a created invitation opens it in
    [AcceptInvite.fetchInvitation]: the invitation (for the submitted
    e-mail, not accepted, expiring seven days after creation) is shown at
    any time up to and including its expiry instant, and reported expired
    after it. *)
Theorem invite_then_fetch (is_email : string -> bool) (d : db) (caller : uid)
    (email role : string) (now : N) (new_id new_token tok : nat)
    (Hout : snd (invite_handleSubmit is_email d caller email role now new_id new_token)
            = InviteCreated tok) :
  exists i, In i (invitations (fst (invite_handleSubmit is_email d caller email role now
                                                        new_id new_token)))
    /\ inv_token i = tok /\ inv_email i = email /\ inv_accepted_at i = None
    /\ inv_expires_at i = (now + seven_days)%N
    /\ forall t, fetchInvitation (fst (invite_handleSubmit is_email d caller email role now
                                                            new_id new_token)) tok t
                 = if (now + seven_days <? t)%N then FetchExpired else FetchOk i.
Proof.
  revert Hout; unfold invite_handleSubmit.
  destruct (inviteSchema is_email email role) as [r|]; [|discriminate].
  cbn zeta.
  destruct (maybeSingle (filter _ (profiles d))); [discriminate|].
  destruct (maybeSingle (filter _ (invitations d))); [discriminate|].
  destruct (has_role (user_roles d) caller super_admin); [|discriminate].
  destruct (existsb (fun i => Nat.eqb (inv_token i) new_token) (invitations d)) eqn:Ht;
    [discriminate|].
  simpl; intro Hout; injection Hout as <-.
  eexists; split; [apply in_app_iff; right; left; reflexivity|].
  repeat split; [].
  intro t; unfold fetchInvitation; simpl.
  rewrite filter_app, (filter_none _ _ Ht); simpl; rewrite Nat.eqb_refl; reflexivity.
Qed.

Lemma invite_then_fetch_witness :
  snd (invite_handleSubmit any_email invite_db0 1 "bob@example.com"%string "editor"%string
         0 1 7) = InviteCreated 7
  /\ exists i, In i (invitations invite_db1)
       /\ inv_token i = 7 /\ inv_email i = "bob@example.com"%string
       /\ inv_accepted_at i = None /\ inv_expires_at i = (0 + seven_days)%N
       /\ forall t, fetchInvitation invite_db1 7 t
                    = if (0 + seven_days <? t)%N then FetchExpired else FetchOk i.
Proof.
  split; [reflexivity|].
  apply (invite_then_fetch any_email invite_db0 1 "bob@example.com"%string "editor"%string
           0 1 7 7); reflexivity.
Defined.

(** Once [AcceptInvite.handleSubmit] has gone through every step for the
    invitation [fetchInvitation] showed, fetching the same token again
    reports it as already accepted, at any time. *)
Theorem accept_then_fetch_already_accepted (d : db) (inv : invitation) (tok : nat)
    (t0 now : N) (fullName password confirmPassword : string) (u : uid)
    (Hfetch : fetchInvitation d tok t0 = FetchOk inv)
    (Hacc : snd (accept_handleSubmit d (Some inv) fullName password confirmPassword now
                   (Some u) true true) = AcceptCreated) :
  forall t, fetchInvitation (fst (accept_handleSubmit d (Some inv) fullName password
                                    confirmPassword now (Some u) true true)) tok t
            = FetchAlreadyAccepted.
Proof.
  assert (Hone : filter (fun i => Nat.eqb (inv_token i) tok) (invitations d) = [inv]).
  { revert Hfetch; unfold fetchInvitation.
    destruct (maybeSingle _) as [i|] eqn:E; [|discriminate].
    apply maybeSingle_Some in E; rewrite E.
    destruct (inv_accepted_at i); [discriminate|].
    destruct (inv_expires_at i <? t0)%N; [discriminate|].
    intro H; injection H as ->; reflexivity. }
  revert Hacc; unfold accept_handleSubmit.
  destruct (signupSchema fullName password confirmPassword); [|discriminate].
  simpl; intros _ t; unfold fetchInvitation; simpl.
  rewrite filter_token_stamp, Hone; unfold stamp_accepted; simpl.
  rewrite Nat.eqb_refl; reflexivity.
Qed.

Lemma accept_then_fetch_already_accepted_witness :
  fetchInvitation accept_db 7 50 = FetchOk bob_invitation
  /\ snd (accept_handleSubmit accept_db (Some bob_invitation) "Bob Martin"%string
            "password1"%string "password1"%string 60%N (Some 9) true true) = AcceptCreated
  /\ fetchInvitation (fst (accept_handleSubmit accept_db (Some bob_invitation)
                             "Bob Martin"%string "password1"%string "password1"%string 60%N
                             (Some 9) true true)) 7 70 = FetchAlreadyAccepted.
Proof.
  split; [reflexivity|split; [reflexivity|]].
  apply (accept_then_fetch_already_accepted accept_db bob_invitation 7 50 60
           "Bob Martin"%string "password1"%string "password1"%string 9); reflexivity.
Defined.

(** A super admin's revocation of the invitation holding a token makes
    [fetchInvitation] report that token as not found, at any time. *)
Theorem revoke_then_fetch_not_found (d : db) (caller : uid) (inv : invitation) (tok : nat)
    (t : N)
    (Hone : filter (fun i => Nat.eqb (inv_token i) tok) (invitations d) = [inv])
    (Hsa : has_role (user_roles d) caller super_admin = true) :
  fetchInvitation (revoke_invitation d caller (inv_id inv)) tok t = FetchNotFound.
Proof.
  unfold revoke_invitation; rewrite Hsa; unfold fetchInvitation; simpl.
  rewrite filter_filter_comm, Hone; simpl; rewrite Nat.eqb_refl; reflexivity.
Qed.

Lemma revoke_then_fetch_not_found_witness :
  filter (fun i => Nat.eqb (inv_token i) 7) (invitations invite_db_expired) = [bob_invitation]
  /\ has_role (user_roles invite_db_expired) 1 super_admin = true
  /\ fetchInvitation (revoke_invitation invite_db_expired 1 (inv_id bob_invitation)) 7 50
     = FetchNotFound.
Proof.
  split; [reflexivity|split; [reflexivity|]].
  apply (revoke_then_fetch_not_found invite_db_expired 1 bob_invitation 7 50); reflexivity.
Defined.
